(** * USD: the Houdini transform wrapper (gusd) and the Hydra mesh schema (hd)

    A shallow embedding of

      - third_party/houdini/lib/gusd/xformWrapper.cpp  (GusdXformWrapper)
      - pxr/imaging/lib/hd/mesh.h                      (HdMesh, HdMeshReprDesc)

    Both files are thin layers over libraries whose sources are elsewhere
    (UsdStage, UsdPrim, the UsdGeom schemas, GusdGroupBaseWrapper, HdRprim,
    HdSceneDelegate).  Those libraries are taken as interfaces: a record of
    operations and the few laws the proofs need.  The functions of the two
    files are written over the interfaces, statement by statement. *)

From Stdlib Require Import ZArith Lia Sorted.
From stdpp Require Import base strings list gmap.

Set Implicit Arguments.
Set Primitive Projections.
Local Open Scope Z_scope.
Local Open Scope list_scope.

(** ** Tokens and paths (pxr/base/tf/token.h, pxr/usd/sdf/path.h) *)

(** A TfToken is an interned string. *)
Abbreviation TfToken := string (only parsing).

Definition TfToken_IsEmpty (t : TfToken) : bool :=
  match t with
  | EmptyString => true
  | String _ _ => false
  end.

(** An absolute prim path, outermost name first: [[]] is the absolute root
    path "/", [["A"; "B"]] is "/A/B". *)
Abbreviation SdfPath := (list string) (only parsing).

Definition SdfPath_GetParentPath (p : SdfPath) : SdfPath :=
  take (Nat.pred (length p)) p.

(** [a] is a proper ancestor of [p]: a strict prefix. *)
Definition SdfPath_IsAncestor (a p : SdfPath) : Prop :=
  exists rest, rest <> [] /\ p = a ++ rest.

(** ** The USD interface used by gusd

    UsdStage, UsdPrim, UsdGeomXform::Define and the bool conversion of a
    schema object live in pxr/usd/lib/usd and pxr/usd/lib/usdGeom.  A stage is
    mutable, so every operation that can author scene description returns the
    new stage.  Whether a prim handle is valid, its type name and its parent
    are read off the stage the handle belongs to. *)

Record UsdApi : Type := {
  UsdStage : Type;
  UsdPrim : Type;
  (** [UsdPrim()], the handle a default-constructed schema object holds *)
  UsdPrim_default : UsdPrim;
  (** [stage->GetPrimAtPath(path)] *)
  Stage_GetPrimAtPath : UsdStage -> SdfPath -> UsdPrim;
  (** [stage->OverridePrim(path)] *)
  Stage_OverridePrim : UsdStage -> SdfPath -> UsdPrim * UsdStage;
  (** [UsdGeomXform::Define(stage, path)]: the prim of the returned schema *)
  Xform_Define : UsdStage -> SdfPath -> UsdPrim * UsdStage;
  (** [bool(prim)] and [prim.IsValid()] *)
  Prim_IsValid : UsdStage -> UsdPrim -> bool;
  Prim_GetParent : UsdStage -> UsdPrim -> UsdPrim;
  Prim_GetTypeName : UsdStage -> UsdPrim -> TfToken;
  Prim_GetPath : UsdPrim -> SdfPath;
  (** [bool(schema)] of a UsdGeomXformable holding the given prim *)
  Schema_bool : UsdStage -> UsdPrim -> bool;
  (** a schema object holding [UsdPrim()] converts to false *)
  Schema_bool_default : forall st, Schema_bool st UsdPrim_default = false;
  (** a valid parent lies strictly higher in namespace *)
  Prim_GetParent_shorter : forall st p,
    Prim_IsValid st (Prim_GetParent st p) = true ->
    (length (Prim_GetPath (Prim_GetParent st p)) < length (Prim_GetPath p))%nat
}.

Section Usd.
Context {api : UsdApi}.

(** The schema classes are views on a prim; [GetPrim()] is the projection. *)
Record UsdGeomXformable : Type := mkXformable { Xformable_GetPrim : UsdPrim api }.
Record UsdGeomXform : Type := mkXform { Xform_GetPrim : UsdPrim api }.
Record UsdGeomImageable : Type := mkImageable { Imageable_GetPrim : UsdPrim api }.

(** [UsdGeomXformable()] *)
Definition UsdGeomXformable_default : UsdGeomXformable :=
  mkXformable (UsdPrim_default api).

(** Assigning a UsdGeomXform to a UsdGeomXformable keeps the prim. *)
Definition Xform_as_Xformable (x : UsdGeomXform) : UsdGeomXformable :=
  mkXformable (Xform_GetPrim x).

Definition Xformable_bool (st : UsdStage api) (x : UsdGeomXformable) : bool :=
  Schema_bool api st (Xformable_GetPrim x).

(** *** Calls on the stage, and diagnostics *)

Inductive StageCall : Type :=
| CallGetPrimAtPath (path : SdfPath)
| CallOverridePrim (path : SdfPath)
| CallXformDefine (path : SdfPath).

(** [TF_WARN("Unable to create %s xform '%s'.", kind, path)] *)
Inductive TfDiagnostic : Type :=
| TfWarn_UnableToCreate (kind : string) (path : SdfPath).

(** What a call of the wrapper can change outside the wrapper object: the
    stage, with the list of calls made on it, and the diagnostics issued. *)
Record World : Type := mkWorld {
  stage : UsdStage api;
  calls : list StageCall;
  diagnostics : list TfDiagnostic
}.

Definition M (A : Type) : Type := World -> A * World.

Definition ret {A} (a : A) : M A := fun w => (a, w).

Definition bind {A B} (c : M A) (k : A -> M B) : M B :=
  fun w => let (a, w') := c w in k a w'.

Definition GetPrimAtPath (path : SdfPath) : M (UsdPrim api) :=
  fun w =>
    (Stage_GetPrimAtPath api (stage w) path,
     mkWorld (stage w) (calls w ++ [CallGetPrimAtPath path]) (diagnostics w)).

Definition OverridePrim (path : SdfPath) : M (UsdPrim api) :=
  fun w =>
    let (p, st) := Stage_OverridePrim api (stage w) path in
    (p, mkWorld st (calls w ++ [CallOverridePrim path]) (diagnostics w)).

Definition UsdGeomXform_Define (path : SdfPath) : M UsdGeomXform :=
  fun w =>
    let (p, st) := Xform_Define api (stage w) path in
    (mkXform p, mkWorld st (calls w ++ [CallXformDefine path]) (diagnostics w)).

Definition TF_WARN (d : TfDiagnostic) : M unit :=
  fun w => (tt, mkWorld (stage w) (calls w) (diagnostics w ++ [d])).

(** Reading through a prim handle does not change the world. *)
Definition IsValid (p : UsdPrim api) : M bool :=
  fun w => (Prim_IsValid api (stage w) p, w).

Definition GetParent (p : UsdPrim api) : M (UsdPrim api) :=
  fun w => (Prim_GetParent api (stage w) p, w).

Definition GetTypeName (p : UsdPrim api) : M TfToken :=
  fun w => (Prim_GetTypeName api (stage w) p, w).

Definition to_bool (x : UsdGeomXformable) : M bool :=
  fun w => (Xformable_bool (stage w) x, w).

End Usd.

Arguments UsdGeomXformable api : clear implicits.
Arguments UsdGeomXform api : clear implicits.
Arguments UsdGeomImageable api : clear implicits.
Arguments UsdGeomXformable_default api : clear implicits.
Arguments World api : clear implicits.
Arguments M api A : clear implicits.

Declare Scope gusd_scope.
Delimit Scope gusd_scope with gusd.
Notation "x <- c ;; k" := (bind c (fun x => k))
  (at level 100, c at next level, right associativity) : gusd_scope.
Notation "c ;;; k" := (bind c (fun _ => k))
  (at level 100, right associativity) : gusd_scope.

(** ** The Houdini side used by GusdXformWrapper

    The GT and UT types come from the host application; GusdContext,
    GusdGroupBaseWrapper (the base class of the wrapper), the stage proxy and
    the transform cache come from other files of gusd. *)

Record GusdHost (api : UsdApi) : Type := {
  GT_PrimitiveHandle : Type;
  UT_Matrix4D : Type;
  UT_BoundingBox : Type;
  GusdSimpleXformCache : Type;
  UsdTimeCode : Type;
  GusdPurposeSet : Type;
  (** context.h: the write options; [overlayGeo] is a public member *)
  GusdContext : Type;
  overlayGeo : GusdContext -> bool;
  (** USD_Proxy.h: what a non-null GusdUSD_StageProxyHandle points to *)
  GusdUSD_StageProxy : Type;
  GusdUSD_Lock : Type;
  StageProxy_GetLock : GusdUSD_StageProxy -> GusdUSD_Lock;
  (** the base-class sub-object, its two constructors and the two inherited
      members the wrapper calls *)
  GusdGroupBaseWrapper : Type;
  GroupBase_default : GusdGroupBaseWrapper;
  GroupBase_ctor : UsdTimeCode -> GusdPurposeSet -> GusdGroupBaseWrapper;
  GroupBase_clearCaches : GusdGroupBaseWrapper -> GusdGroupBaseWrapper;
  GroupBase_updateGroupFromGTPrim :
    GusdGroupBaseWrapper -> UsdGeomXformable api -> GT_PrimitiveHandle ->
    UT_Matrix4D -> GusdContext -> GusdSimpleXformCache ->
    M api (bool * GusdGroupBaseWrapper * GusdSimpleXformCache)
}.

Section Gusd.
Context {api : UsdApi} (host : GusdHost api).
Local Open Scope gusd_scope.

(** GusdUSD_XformHolder: a UsdGeomXform together with the lock of its
    stage, or nothing when default-constructed. *)
Inductive GusdUSD_XformHolder : Type :=
| Holder_default
| Holder_of (prim : UsdGeomXform api) (lock : GusdUSD_Lock host).

(** The members of the wrapper, after its base-class sub-object.  A
    GusdUSD_StageProxyHandle is a nullable handle. *)
Record GusdXformWrapper : Type := mkWrapper {
  base : GusdGroupBaseWrapper host;
  m_usdXformForWrite : UsdGeomXformable api;
  m_usdXformForRead : GusdUSD_XformHolder;
  m_stageProxy : option (GusdUSD_StageProxy host)
}.

Definition set_usdXformForWrite (this : GusdXformWrapper)
    (x : UsdGeomXformable api) : GusdXformWrapper :=
  mkWrapper (base this) x (m_usdXformForRead this) (m_stageProxy this).

Definition set_base (this : GusdXformWrapper)
    (b : GusdGroupBaseWrapper host) : GusdXformWrapper :=
  mkWrapper b (m_usdXformForWrite this) (m_usdXformForRead this)
            (m_stageProxy this).

(** *** initUsdPrim (xformWrapper.cpp, lines 85-119) *)

(** The loop of lines 106-109,
      [while( p && p.GetTypeName().IsEmpty() ) {
           UsdGeomXform::Define( stage, p.GetPath() ); p = p.GetParent(); }]
    with a bound on the number of iterations. *)
Fixpoint defineAncestors_upto (n : nat) (p : UsdPrim api) : M api unit :=
  match n with
  | O => ret tt
  | S n' =>
      valid <- IsValid p ;;
      typeName <- GetTypeName p ;;
      if valid && TfToken_IsEmpty typeName then
        UsdGeomXform_Define (Prim_GetPath api p) ;;;
        p' <- GetParent p ;;
        defineAncestors_upto n' p'
      else ret tt
  end.

(** A prim at depth d has d + 1 ancestors-or-self up to the pseudo-root, so
    the bound below is never reached ([defineAncestors_unfold]). *)
Definition defineAncestors (p : UsdPrim api) : M api unit :=
  defineAncestors_upto (S (length (Prim_GetPath api p))) p.

(** The same loop as a relation between the world at its entry, the prim
    [p] at its entry, and the world at its exit. *)
Definition untyped (st : UsdStage api) (p : UsdPrim api) : bool :=
  Prim_IsValid api st p && TfToken_IsEmpty (Prim_GetTypeName api st p).

Inductive AncestorWalk : World api -> UsdPrim api -> World api -> Prop :=
| walk_stop (w : World api) (p : UsdPrim api) :
    untyped (stage w) p = false ->
    AncestorWalk w p w
| walk_step (w w1 w' : World api) (p : UsdPrim api) :
    untyped (stage w) p = true ->
    w1 = snd (UsdGeomXform_Define (Prim_GetPath api p) w) ->
    AncestorWalk w1 (Prim_GetParent api (stage w1) p) w' ->
    AncestorWalk w p w'.

(** Lines 90-114: the if/else that picks the prim to write to.  The
    result is the wrapper with its write-side member assigned, and the
    local [newPrim]. *)
Definition initUsdPrim_target (this : GusdXformWrapper) (path : SdfPath)
    (asOverride : bool) : M api (GusdXformWrapper * bool) :=
  if asOverride then
    existing <- GetPrimAtPath path ;;
    exists_ <- IsValid existing ;;
    if exists_ then
      p <- OverridePrim path ;;
      ret (set_usdXformForWrite this (mkXformable p), false)
    else
      x <- UsdGeomXform_Define path ;;
      let this1 := set_usdXformForWrite this (Xform_as_Xformable x) in
      p <- GetParent (Xformable_GetPrim (m_usdXformForWrite this1)) ;;
      defineAncestors p ;;;
      ret (this1, true)
  else
    x <- UsdGeomXform_Define path ;;
    ret (set_usdXformForWrite this (Xform_as_Xformable x), true).

(** Lines 115-118: the warning and the return value. *)
Definition initUsdPrim_report (this : GusdXformWrapper) (newPrim : bool)
    (path : SdfPath) : M api (bool * GusdXformWrapper) :=
  ok <- to_bool (m_usdXformForWrite this) ;;
  primValid <- IsValid (Xformable_GetPrim (m_usdXformForWrite this)) ;;
  (if negb ok || negb primValid then
     TF_WARN (TfWarn_UnableToCreate (if newPrim then "new" else "override")
                                    path)
   else ret tt) ;;;
  result <- to_bool (m_usdXformForWrite this) ;;
  ret (result, this).

Definition initUsdPrim (this : GusdXformWrapper) (path : SdfPath)
    (asOverride : bool) : M api (bool * GusdXformWrapper) :=
  r <- initUsdPrim_target this path asOverride ;;
  initUsdPrim_report (fst r) (snd r) path.

(** "In the override-with-no-existing-prim case it defines a UsdGeomXform
    at every ancestor prim whose type name is empty", as a statement about
    one call: every proper ancestor of [path] that, once [path] has been
    defined, is a prim with an empty type name, has had an Xform defined
    at it when initUsdPrim returns. *)
Definition definesEveryUntypedAncestor (this : GusdXformWrapper)
    (path : SdfPath) (w : World api) : Prop :=
  let st1 := snd (Xform_Define api (stage w) path) in
  let w' := snd (initUsdPrim this path true w) in
  forall a : SdfPath,
    SdfPath_IsAncestor a path ->
    untyped st1 (Stage_GetPrimAtPath api st1 a) = true ->
    In (CallXformDefine a) (calls w').

(** *** Constructors (lines 55-80) *)

(** The object before a constructor body runs when no member initialiser is
    given: every member default-constructed. *)
Definition GusdXformWrapper_members_default : GusdXformWrapper :=
  mkWrapper (GroupBase_default host) (UsdGeomXformable_default api)
            Holder_default None.

(** [GusdXformWrapper(stage, path, isOverride)]; the value of initUsdPrim
    is dropped. *)
Definition GusdXformWrapper_forWrite (path : SdfPath) (isOverride : bool)
    : M api GusdXformWrapper :=
  r <- initUsdPrim GusdXformWrapper_members_default path isOverride ;;
  ret (snd r).

(** [GusdXformWrapper(stage, usdXform, time, purposes)]; [stage] is
    dereferenced, so it is a non-null handle. *)
Definition GusdXformWrapper_forRead (stageProxy : GusdUSD_StageProxy host)
    (usdXform : UsdGeomXform api) (time : UsdTimeCode host)
    (purposes : GusdPurposeSet host) : GusdXformWrapper :=
  mkWrapper (GroupBase_ctor host time purposes)
            (UsdGeomXformable_default api)
            (Holder_of usdXform (StageProxy_GetLock host stageProxy))
            (Some stageProxy).

(** The copy constructor, and doSoftCopy which calls it. *)
Definition GusdXformWrapper_copy (other : GusdXformWrapper) : GusdXformWrapper :=
  mkWrapper (base other) (m_usdXformForWrite other)
            (m_usdXformForRead other) (m_stageProxy other).

Definition doSoftCopy (this : GusdXformWrapper) : GusdXformWrapper :=
  GusdXformWrapper_copy this.

(** *** defineForWrite, defineForRead, redefine (lines 121-157) *)

Definition defineForWrite (sourcePrim : GT_PrimitiveHandle host)
    (path : SdfPath) (ctxt : GusdContext host) : M api GusdXformWrapper :=
  GusdXformWrapper_forWrite path (overlayGeo host ctxt).

Definition defineForRead (stageProxy : GusdUSD_StageProxy host)
    (sourcePrim : UsdGeomImageable api) (time : UsdTimeCode host)
    (purposes : GusdPurposeSet host) : GusdXformWrapper :=
  GusdXformWrapper_forRead stageProxy
    (mkXform (Imageable_GetPrim sourcePrim)) time purposes.

Definition clearCaches (this : GusdXformWrapper) : GusdXformWrapper :=
  set_base this (GroupBase_clearCaches host (base this)).

Definition redefine (this : GusdXformWrapper) (path : SdfPath)
    (ctxt : GusdContext host) (sourcePrim : GT_PrimitiveHandle host)
    : M api (bool * GusdXformWrapper) :=
  r <- initUsdPrim this path (overlayGeo host ctxt) ;;
  ret (true, clearCaches (snd r)).

(** *** The GT_Primitive queries (lines 167-208) *)

Definition className (this : GusdXformWrapper) : string := "GusdXformWrapper".

(** [boxes] is an array the caller owns; the result is the array after the
    call.  The body is empty. *)
Definition enlargeBounds (this : GusdXformWrapper)
    (boxes : list (UT_BoundingBox host)) (nsegments : Z)
    : list (UT_BoundingBox host) :=
  boxes.

Definition getMotionSegments (this : GusdXformWrapper) : Z := 1.

Definition getMemoryUsage (this : GusdXformWrapper) : Z := 0.

(** [return m_usdXformForWrite || m_usdXformForWrite;] *)
Definition isValid (st : UsdStage api) (this : GusdXformWrapper) : bool :=
  Xformable_bool st (m_usdXformForWrite this)
  || Xformable_bool st (m_usdXformForWrite this).

(** *** updateFromGTPrim (lines 238-250); DBG expands to nothing unless
    DEBUG is defined. *)
Definition updateGroupFromGTPrim (this : GusdXformWrapper)
    (destPrim : UsdGeomXformable api) (sourcePrim : GT_PrimitiveHandle host)
    (localXform : UT_Matrix4D host) (ctxt : GusdContext host)
    (xformCache : GusdSimpleXformCache host)
    : M api (bool * GusdXformWrapper * GusdSimpleXformCache host) :=
  r <- GroupBase_updateGroupFromGTPrim host (base this) destPrim sourcePrim
         localXform ctxt xformCache ;;
  ret (fst (fst r), set_base this (snd (fst r)), snd r).

Definition updateFromGTPrim (this : GusdXformWrapper)
    (sourcePrim : GT_PrimitiveHandle host) (localXform : UT_Matrix4D host)
    (ctxt : GusdContext host) (xformCache : GusdSimpleXformCache host)
    : M api (bool * GusdXformWrapper * GusdSimpleXformCache host) :=
  ok <- to_bool (m_usdXformForWrite this) ;;
  if negb ok then ret (false, this, xformCache)
  else updateGroupFromGTPrim this (m_usdXformForWrite this) sourcePrim
         localXform ctxt xformCache.

End Gusd.

(** ** getUniqueID (xformWrapper.cpp, lines 159-165)

    [static const int s_id = GT_Primitive::createPrimitiveTypeId();] is a
    function-local static: it is initialised by the first call that reaches
    it and read by all later ones.  The registry of primitive type ids
    belongs to the host application. *)

Section UniqueId.
Context {api : UsdApi} (host : GusdHost api).
Variable GT_TypeIds : Type.
Variable createPrimitiveTypeId : GT_TypeIds -> Z * GT_TypeIds.

(** The host's registry and the static [s_id], [None] until initialised. *)
Record IdWorld : Type := mkIdWorld {
  typeIds : GT_TypeIds;
  s_id : option Z
}.

(** The result is the value returned and the value stored in [id]. *)
Definition getUniqueID (this : GusdXformWrapper host) (w : IdWorld)
    : (bool * Z) * IdWorld :=
  match s_id w with
  | Some id => ((true, id), w)
  | None =>
      let (id, ids) := createPrimitiveTypeId (typeIds w) in
      ((true, id), mkIdWorld ids (Some id))
  end.

(** getUniqueID called on one wrapper after the other. *)
Fixpoint getUniqueID_each (wrappers : list (GusdXformWrapper host))
    (w : IdWorld) : list (bool * Z) * IdWorld :=
  match wrappers with
  | [] => ([], w)
  | this :: rest =>
      let (r, w1) := getUniqueID this w in
      let (rs, w2) := getUniqueID_each rest w1 in
      (r :: rs, w2)
  end.

End UniqueId.

(** ** Hydra: HdMesh (pxr/imaging/lib/hd/mesh.h) *)

Module Hd.

(** The types mesh.h takes from its includes (enums.h, meshTopology.h,
    subdivTags.h, vt/value.h) with the two enumerators and the two tokens
    it names. *)
Record Types : Type := {
  HdMeshGeomStyle : Type;
  HdMeshGeomStyleInvalid : HdMeshGeomStyle;
  HdCullStyle : Type;
  HdCullStyleDontCare : HdCullStyle;
  HdMeshTopology : Type;
  PxOsdSubdivTags : Type;
  VtValue : Type;
  HdTokens_points : TfToken;
  HdTokens_normals : TfToken
}.

(** HdSceneDelegate is an abstract class; [D] is the state of a delegate
    and each virtual member function may change it. *)
Class HdSceneDelegate (T : Types) (D : Type) : Type := {
  GetDoubleSided : D -> SdfPath -> bool * D;
  GetCullStyle : D -> SdfPath -> HdCullStyle T * D;
  GetMeshTopology : D -> SdfPath -> HdMeshTopology T * D;
  GetRefineLevel : D -> SdfPath -> Z * D;
  GetSubdivTags : D -> SdfPath -> PxOsdSubdivTags T * D
}.

(** HdRprim, the base class of HdMesh (rprim.h): the two members the
    accessors call. *)
Record HdRprimOps (T : Types) (D : Type) : Type := {
  HdRprim : Type;
  GetId : HdRprim -> SdfPath;
  GetPrimVar : HdRprim -> D -> TfToken -> VtValue T * D
}.

Section Mesh.
Context {T : Types}.

(** [struct HdMeshReprDesc] (lines 42-60).  The members are bit-fields of
    3, 3, 1, 1 and 1 bits; the enumerations are taken to fit them. *)
Record HdMeshReprDesc : Type := mkHdMeshReprDesc {
  geomStyle : HdMeshGeomStyle T;
  cullStyle : HdCullStyle T;
  lit : bool;
  smoothNormals : bool;
  blendWireframeColor : bool
}.

(** [HdMeshReprDesc()]: every argument at its default. *)
Definition HdMeshReprDesc_default : HdMeshReprDesc :=
  mkHdMeshReprDesc (HdMeshGeomStyleInvalid T) (HdCullStyleDontCare T)
                   false false true.

(** [_ReprDescConfigs<HdMeshReprDesc, 2>::DescArray]: two descriptors. *)
Definition DescArray : Type := HdMeshReprDesc * HdMeshReprDesc.

Definition MAX_DESCS : nat := 2.

(** Modelled from the spec: the store behind the static member
    [_reprDescConfig] (the template [_ReprDescConfigs] of rprim.h), which
    the spec describes only as "configurable draw representations"; it
    is taken to hold one descriptor array per repr name. *)
Definition _MeshReprConfig : Type := gmap string DescArray.

Context {D : Type} {delegateClass : HdSceneDelegate T D}
        (rprim : HdRprimOps T D).

(** HdMesh adds no data member to HdRprim. *)
Record HdMesh : Type := mkHdMesh { asRprim : HdRprim rprim }.

(** What the accessors can reach: the delegate they are handed, the mesh
    they are called on, and the static repr configuration. *)
Record HdWorld : Type := mkHdWorld {
  delegate : D;
  mesh : HdMesh;
  reprDescConfig : _MeshReprConfig
}.

(** A call through the delegate pointer: only the delegate moves. *)
Definition viaDelegate {A} (f : D -> A * D) (w : HdWorld) : A * HdWorld :=
  let (a, d) := f (delegate w) in
  (a, mkHdWorld d (mesh w) (reprDescConfig w)).

Definition HdMesh_GetId (w : HdWorld) : SdfPath :=
  GetId rprim (asRprim (mesh w)).

(** Lines 120-160. *)
Definition IsDoubleSided (w : HdWorld) : bool * HdWorld :=
  viaDelegate (fun d => GetDoubleSided d (HdMesh_GetId w)) w.

Definition HdMesh_GetCullStyle (w : HdWorld) : HdCullStyle T * HdWorld :=
  viaDelegate (fun d => GetCullStyle d (HdMesh_GetId w)) w.

Definition HdMesh_GetMeshTopology (w : HdWorld)
    : HdMeshTopology T * HdWorld :=
  viaDelegate (fun d => GetMeshTopology d (HdMesh_GetId w)) w.

Definition HdMesh_GetRefineLevel (w : HdWorld) : Z * HdWorld :=
  viaDelegate (fun d => GetRefineLevel d (HdMesh_GetId w)) w.

Definition HdMesh_GetSubdivTags (w : HdWorld)
    : PxOsdSubdivTags T * HdWorld :=
  viaDelegate (fun d => GetSubdivTags d (HdMesh_GetId w)) w.

Definition HdMesh_GetPrimVar (name : TfToken) (w : HdWorld)
    : VtValue T * HdWorld :=
  viaDelegate (fun d => GetPrimVar rprim (asRprim (mesh w)) d name) w.

Definition GetPoints (w : HdWorld) : VtValue T * HdWorld :=
  HdMesh_GetPrimVar (HdTokens_points T) w.

Definition GetNormals (w : HdWorld) : VtValue T * HdWorld :=
  HdMesh_GetPrimVar (HdTokens_normals T) w.

End Mesh.

Arguments HdMeshReprDesc T : clear implicits.
Arguments DescArray T : clear implicits.
Arguments _MeshReprConfig T : clear implicits.

End Hd.

(** ** A small stage, to run the wrapper on

    One implementation of the USD interface: a stage is a finite map from
    the paths of its prims to their type names, and the pseudo-root is
    always there. *)

Module Scene.

Definition Stage : Type := gmap (list string) string.

(** A prim handle is the path it was made for; [None] is [UsdPrim()]. *)
Definition Prim : Type := option (list string).

Definition hasPrim (st : Stage) (path : SdfPath) : bool :=
  match path with
  | [] => true
  | _ => bool_decide (is_Some (st !! path))
  end.

Definition typeNameAt (st : Stage) (path : SdfPath) : TfToken :=
  default EmptyString (st !! path).

(** A path with an empty name in it is not a prim path. *)
Definition isPrimPath (path : SdfPath) : bool :=
  forallb (fun name => negb (TfToken_IsEmpty name)) path.

(** Modelled from the spec: [UsdStage::GetPrimAtPath] (pxr/usd/lib/usd,
    stage.cpp): the prim at [path] if the stage has one, else an invalid
    handle. *)
Definition getPrimAtPath (st : Stage) (path : SdfPath) : Prim :=
  if hasPrim st path then Some path else None.

(** Author an untyped prim where there is none. *)
Definition ensurePrim (st : Stage) (path : SdfPath) : Stage :=
  if hasPrim st path then st else <[path := EmptyString]> st.

(** The proper ancestors of [path], outermost first, without the root. *)
Definition ancestorPaths (path : SdfPath) : list SdfPath :=
  map (fun n => take n path) (seq 1 (Nat.pred (length path))).

(** Modelled from the spec: [UsdStage::OverridePrim] (pxr/usd/lib/usd,
    stage.cpp): makes sure there is a prim at [path] and at each ancestor,
    authoring untyped prims where there are none. *)
Definition overridePrim (st : Stage) (path : SdfPath) : Prim * Stage :=
  if isPrimPath path then
    (Some path, foldl ensurePrim st (ancestorPaths path ++ [path]))
  else (None, st).

(** Modelled from the spec: [UsdGeomXform::Define] (pxr/usd/lib/usdGeom,
    xform.cpp): authors a prim of type Xform at [path], and untyped prims
    at the ancestors that are missing; on the root path it does nothing and
    returns the pseudo-root; on an ill-formed path it fails. *)
Definition defineXform (st : Stage) (path : SdfPath) : Prim * Stage :=
  if isPrimPath path then
    match path with
    | [] => (Some [], st)
    | _ => (Some path, <[path := "Xform"]> (foldl ensurePrim st (ancestorPaths path)))
    end
  else (None, st).

(** Modelled from the spec: the members of [UsdPrim] (pxr/usd/lib/usd,
    prim.h) the wrapper calls: a handle is valid while the stage has a prim
    at its path; the parent of the pseudo-root is an invalid handle. *)
Definition primIsValid (st : Stage) (p : Prim) : bool :=
  match p with
  | Some path => hasPrim st path
  | None => false
  end.

Definition primGetParent (st : Stage) (p : Prim) : Prim :=
  match p with
  | Some ((_ :: _) as path) => Some (SdfPath_GetParentPath path)
  | _ => None
  end.

Definition primGetTypeName (st : Stage) (p : Prim) : TfToken :=
  match p with
  | Some path => typeNameAt st path
  | None => EmptyString
  end.

Definition primGetPath (p : Prim) : SdfPath := default [] p.

Definition primGetParent_shorter (st : Stage) (p : Prim) :
  primIsValid st (primGetParent st p) = true ->
  (length (primGetPath (primGetParent st p)) < length (primGetPath p))%nat.
Proof.
  destruct p as [[|name path]|]; try discriminate.
  intros _. unfold primGetParent, primGetPath, SdfPath_GetParentPath.
  cbn [default from_option id]. rewrite length_take. simpl. lia.
Defined.

Definition api : UsdApi := {|
  UsdStage := Stage;
  UsdPrim := Prim;
  UsdPrim_default := None;
  Stage_GetPrimAtPath := getPrimAtPath;
  Stage_OverridePrim := overridePrim;
  Xform_Define := defineXform;
  Prim_IsValid := primIsValid;
  Prim_GetParent := primGetParent;
  Prim_GetTypeName := primGetTypeName;
  Prim_GetPath := primGetPath;
  Schema_bool := primIsValid;
  Schema_bool_default := fun _ => eq_refl;
  Prim_GetParent_shorter := primGetParent_shorter
|}.

(** The host side, as small as it can be: the base class counts how often
    its caches were cleared and how many updates it has seen. *)
Record GroupBase : Type := mkGroupBase {
  gb_time : Z;
  gb_purposes : nat;
  gb_cleared : nat;
  gb_updates : nat
}.

Definition updateGroup (b : GroupBase) (dest : UsdGeomXformable api)
    (src : string) (xf : Z) (ctxt : bool * nat) (cache : nat)
    : M api (bool * GroupBase * nat) :=
  ret (true,
       mkGroupBase (gb_time b) (gb_purposes b) (gb_cleared b) (S (gb_updates b)),
       S cache).

Definition host : GusdHost api := {|
  GT_PrimitiveHandle := string;
  UT_Matrix4D := Z;
  UT_BoundingBox := Z * Z;
  GusdSimpleXformCache := nat;
  UsdTimeCode := Z;
  GusdPurposeSet := nat;
  GusdContext := bool * nat;
  overlayGeo := fst;
  GusdUSD_StageProxy := nat;
  GusdUSD_Lock := nat;
  StageProxy_GetLock := fun proxy => proxy;
  GusdGroupBaseWrapper := GroupBase;
  GroupBase_default := mkGroupBase 0 0 0 0;
  GroupBase_ctor := fun time purposes => mkGroupBase time purposes 0 0;
  GroupBase_clearCaches := fun b =>
    mkGroupBase (gb_time b) (gb_purposes b) (S (gb_cleared b)) (gb_updates b);
  GroupBase_updateGroupFromGTPrim := updateGroup
|}.

Definition world (st : Stage) : World api := mkWorld (st : UsdStage api) [] [].

(** /A is untyped, /A/B is a Scope. *)
Definition stageAB : Stage :=
  <[ ["A"; "B"] := "Scope" ]> (<[ ["A"] := EmptyString ]> ∅).

Definition fresh : GusdXformWrapper host :=
  GusdXformWrapper_members_default host.

(** A wrapper writing to /A/B. *)
Definition onAB : GusdXformWrapper host :=
  set_usdXformForWrite fresh (mkXformable (api := api) (Some ["A"; "B"])).

End Scene.

(** * Properties *)

(** ** The state monad *)

Section MonadLaws.
Context {api : UsdApi}.

Lemma bind_run {A B} (c : M api A) (k : A -> M api B) (w : World api) :
  bind c k w = k (fst (c w)) (snd (c w)).
Proof. unfold bind. destruct (c w); reflexivity. Qed.

Lemma ret_run {A} (a : A) (w : World api) : ret a w = (a, w).
Proof. reflexivity. Qed.

Lemma Define_stage (path : SdfPath) (w : World api) :
  stage (snd (UsdGeomXform_Define path w)) = snd (Xform_Define api (stage w) path).
Proof. unfold UsdGeomXform_Define. destruct (Xform_Define api (stage w) path); reflexivity. Qed.

Lemma Define_calls (path : SdfPath) (w : World api) :
  calls (snd (UsdGeomXform_Define path w)) = calls w ++ [CallXformDefine path].
Proof. unfold UsdGeomXform_Define. destruct (Xform_Define api (stage w) path); reflexivity. Qed.

Lemma Define_diagnostics (path : SdfPath) (w : World api) :
  diagnostics (snd (UsdGeomXform_Define path w)) = diagnostics w.
Proof. unfold UsdGeomXform_Define. destruct (Xform_Define api (stage w) path); reflexivity. Qed.

Lemma Define_prim (path : SdfPath) (w : World api) :
  Xform_GetPrim (fst (UsdGeomXform_Define path w)) = fst (Xform_Define api (stage w) path).
Proof. unfold UsdGeomXform_Define. destruct (Xform_Define api (stage w) path); reflexivity. Qed.

End MonadLaws.

(** ** The ancestor loop of initUsdPrim *)

Section AncestorLoop.
Context {api : UsdApi} (host : GusdHost api).

Lemma defineAncestors_upto_step (n : nat) (p : UsdPrim api) (w : World api) :
  defineAncestors_upto (S n) p w =
    if untyped (stage w) p then
      let w1 := snd (UsdGeomXform_Define (Prim_GetPath api p) w) in
      defineAncestors_upto n (Prim_GetParent api (stage w1) p) w1
    else (tt, w).
Proof.
  cbn [defineAncestors_upto]. rewrite !bind_run. cbn [IsValid GetTypeName fst snd].
  fold (untyped (stage w) p). destruct (untyped (stage w) p); [|reflexivity].
  rewrite !bind_run. reflexivity.
Qed.

(** Once the bound exceeds the depth of the prim, a larger bound changes
    nothing: the loop has left by its own test. *)
Lemma defineAncestors_upto_enough (n : nat) :
  forall (m : nat) (p : UsdPrim api) (w : World api),
    (Prim_IsValid api (stage w) p = true -> (length (Prim_GetPath api p) < n)%nat) ->
    (n <= m)%nat ->
    defineAncestors_upto n p w = defineAncestors_upto m p w.
Proof.
  induction n as [|n IH]; intros m p w Hdepth Hle.
  - destruct m as [|m]; [reflexivity|].
    rewrite defineAncestors_upto_step. unfold untyped.
    destruct (Prim_IsValid api (stage w) p) eqn:Hv; [|reflexivity].
    specialize (Hdepth eq_refl). lia.
  - destruct m as [|m]; [lia|].
    rewrite !defineAncestors_upto_step.
    destruct (untyped (stage w) p) eqn:Hu; [|reflexivity].
    cbv zeta. apply IH; [|lia].
    intros Hparent. apply Prim_GetParent_shorter in Hparent.
    unfold untyped in Hu. apply andb_prop in Hu as [Hv _].
    specialize (Hdepth Hv). lia.
Qed.

(** [defineAncestors] is the while loop: it satisfies the loop's own
    unfolding, with no bound left. *)
Lemma defineAncestors_unfold (p : UsdPrim api) (w : World api) :
  defineAncestors p w =
    if untyped (stage w) p then
      let w1 := snd (UsdGeomXform_Define (Prim_GetPath api p) w) in
      defineAncestors (Prim_GetParent api (stage w1) p) w1
    else (tt, w).
Proof.
  unfold defineAncestors at 1. rewrite defineAncestors_upto_step.
  destruct (untyped (stage w) p); [|reflexivity].
  cbv zeta. unfold defineAncestors.
  set (w1 := snd (UsdGeomXform_Define (Prim_GetPath api p) w)).
  set (q := Prim_GetParent api (stage w1) p).
  destruct (Prim_IsValid api (stage w1) q) eqn:Hq.
  - pose proof (Prim_GetParent_shorter api (stage w1) p Hq) as Hlt. fold q in Hlt.
    symmetry. apply defineAncestors_upto_enough; [intros _; lia | lia].
  - transitivity (defineAncestors_upto 0 q w1).
    + symmetry. apply defineAncestors_upto_enough; [congruence | lia].
    + apply defineAncestors_upto_enough; [congruence | lia].
Qed.

(** A typed (or invalid) parent ends the loop at once: nothing above it is
    looked at. *)
Lemma defineAncestors_typed_parent (p : UsdPrim api) (w : World api) :
  untyped (stage w) p = false -> defineAncestors p w = (tt, w).
Proof. intros Hstop. rewrite defineAncestors_unfold, Hstop. reflexivity. Qed.

Lemma defineAncestors_upto_walk (n : nat) :
  forall (p : UsdPrim api) (w : World api),
    (Prim_IsValid api (stage w) p = true -> (length (Prim_GetPath api p) < n)%nat) ->
    AncestorWalk w p (snd (defineAncestors_upto n p w)).
Proof.
  induction n as [|n IH]; intros p w Hdepth.
  - change (AncestorWalk w p w). apply walk_stop. unfold untyped.
    destruct (Prim_IsValid api (stage w) p); [specialize (Hdepth eq_refl); lia | reflexivity].
  - rewrite defineAncestors_upto_step.
    destruct (untyped (stage w) p) eqn:Hu; [|apply walk_stop; exact Hu].
    cbv zeta. eapply walk_step; [exact Hu | reflexivity |].
    apply IH. intros Hparent. apply Prim_GetParent_shorter in Hparent.
    unfold untyped in Hu. apply andb_prop in Hu as [Hv _].
    specialize (Hdepth Hv). lia.
Qed.

Lemma defineAncestors_walk (p : UsdPrim api) (w : World api) :
  AncestorWalk w p (snd (defineAncestors p w)).
Proof. apply defineAncestors_upto_walk. intros _. lia. Qed.

(** The walk is a function of its start. *)
Lemma AncestorWalk_deterministic (w w1 w2 : World api) (p : UsdPrim api) :
  AncestorWalk w p w1 -> AncestorWalk w p w2 -> w1 = w2.
Proof.
  intros H1. revert w2.
  induction H1 as [w p Hstop | w wa w' p Hgo Hwa _ IH]; intros w2 H2.
  - inversion H2; subst; [reflexivity | congruence].
  - inversion H2; subst; [congruence|]. apply IH. assumption.
Qed.

(** The walk only defines Xforms and issues no diagnostic. *)
Lemma AncestorWalk_calls (w w' : World api) (p : UsdPrim api) :
  AncestorWalk w p w' ->
  diagnostics w' = diagnostics w /\
  exists paths, calls w' = calls w ++ map CallXformDefine paths.
Proof.
  induction 1 as [w p _ | w wa w' p _ Hwa _ [IHd [paths IHc]]].
  - split; [reflexivity|]. exists []. simpl. rewrite app_nil_r. reflexivity.
  - subst wa. rewrite Define_diagnostics in IHd. rewrite Define_calls in IHc.
    split; [exact IHd|]. exists (Prim_GetPath api p :: paths).
    rewrite IHc, <- app_assoc. reflexivity.
Qed.

End AncestorLoop.

(** ** GusdXformWrapper *)

Section WrapperProperties.
Context {api : UsdApi} (host : GusdHost api).

(** The statements after the if/else of initUsdPrim read the stage, may
    warn, and return the bool conversion of the write-side member. *)
Lemma initUsdPrim_report_run (this' : GusdXformWrapper host) (newPrim : bool)
    (path : SdfPath) (w1 : World api) :
  let r := initUsdPrim_report this' newPrim path w1 in
  fst r = (Xformable_bool (stage w1) (m_usdXformForWrite this'), this') /\
  stage (snd r) = stage w1 /\
  calls (snd r) = calls w1.
Proof.
  cbv zeta. unfold initUsdPrim_report.
  rewrite !bind_run. cbn [to_bool IsValid fst snd].
  destruct (negb _ || negb _); rewrite ?bind_run; cbn; auto.
Qed.

(** initUsdPrim, case by case.  With asOverride and a prim at [path],
    the write side becomes a UsdGeomXformable on the prim returned by
    OverridePrim and no Xform is defined.  Otherwise a UsdGeomXform is
    defined at [path]; when asOverride is set, the code then walks up from
    the parent, defining an Xform at each ancestor for as long as the
    ancestor is valid and has an empty type name, and stops at the first
    ancestor that is invalid or typed.  Only the write-side member of the
    wrapper changes, and the value returned is the bool conversion of the
    write-side member. *)
Theorem initUsdPrim_spec (this : GusdXformWrapper host) (path : SdfPath)
    (asOverride : bool) (w : World api) :
  let r := initUsdPrim this path asOverride w in
  let this' := snd (fst r) in
  let w' := snd r in
  fst (fst r) = Xformable_bool (stage w') (m_usdXformForWrite this') /\
  this' = set_usdXformForWrite this (m_usdXformForWrite this') /\
  if asOverride
     && Prim_IsValid api (stage w) (Stage_GetPrimAtPath api (stage w) path)
  then
    let o := Stage_OverridePrim api (stage w) path in
    m_usdXformForWrite this' = mkXformable (fst o) /\
    stage w' = snd o /\
    calls w' = calls w ++ [CallGetPrimAtPath path; CallOverridePrim path]
  else
    let d := Xform_Define api (stage w) path in
    m_usdXformForWrite this' = mkXformable (fst d) /\
    if asOverride then
      exists w1,
        AncestorWalk
          (mkWorld (snd d)
                   (calls w ++ [CallGetPrimAtPath path; CallXformDefine path])
                   (diagnostics w))
          (Prim_GetParent api (snd d) (fst d)) w1 /\
        stage w' = stage w1 /\ calls w' = calls w1
    else
      stage w' = snd d /\ calls w' = calls w ++ [CallXformDefine path].
Proof.
  cbv zeta. unfold initUsdPrim. rewrite bind_run.
  set (b := initUsdPrim_target this path asOverride w).
  destruct (initUsdPrim_report_run (fst (fst b)) (snd (fst b)) path (snd b))
    as (Hres & Hst & Hcalls).
  rewrite Hres, Hst, Hcalls. clear Hres Hst Hcalls.
  split; [reflexivity|].
  subst b. unfold initUsdPrim_target.
  destruct asOverride; cbn [andb].
  - rewrite !bind_run. cbn [GetPrimAtPath IsValid fst snd stage].
    destruct (Prim_IsValid api (stage w) (Stage_GetPrimAtPath api (stage w) path)).
    + rewrite bind_run. unfold OverridePrim. cbn [stage calls diagnostics].
      destruct (Stage_OverridePrim api (stage w) path) as [p st].
      cbn. rewrite <- app_assoc. auto.
    + rewrite !bind_run. cbn [GetParent fst snd ret].
      set (w0 := mkWorld (stage w) (calls w ++ [CallGetPrimAtPath path])
                         (diagnostics w)).
      set (w1 := snd (UsdGeomXform_Define path w0)).
      set (x := fst (UsdGeomXform_Define path w0)).
      assert (Hx : Xform_GetPrim x = fst (Xform_Define api (stage w) path))
        by (subst x; rewrite Define_prim; reflexivity).
      assert (Hw1 : w1 = mkWorld (snd (Xform_Define api (stage w) path))
                           (calls w ++ [CallGetPrimAtPath path; CallXformDefine path])
                           (diagnostics w)).
      { subst w1 w0. unfold UsdGeomXform_Define. cbn [stage calls diagnostics].
        destruct (Xform_Define api (stage w) path). cbn.
        rewrite <- app_assoc. reflexivity. }
      split; [reflexivity|].
      split; [unfold Xform_as_Xformable; cbn; rewrite Hx; reflexivity|].
      exists (snd (defineAncestors (Prim_GetParent api (stage w1) (Xform_GetPrim x)) w1)).
      split; [|split; reflexivity].
      rewrite Hx. clearbody w1. subst w1.
      apply (defineAncestors_walk _ (mkWorld _ _ _)).
  - rewrite bind_run. cbn [ret fst snd].
    rewrite Define_stage, Define_calls.
    unfold Xform_as_Xformable. cbn [set_usdXformForWrite m_usdXformForWrite].
    rewrite Define_prim. auto.
Qed.

(** ** C2: isValid is the bool conversion of the write-side member; the
    read-side member and the stage proxy play no part in it, and a wrapper
    made by defineForRead is never valid. *)
Theorem isValid_write_side_only (st : UsdStage api)
    (this : GusdXformWrapper host) :
  isValid st this = Xformable_bool st (m_usdXformForWrite this) /\
  (forall (readSide : GusdUSD_XformHolder host)
          (proxy : option (GusdUSD_StageProxy host)),
     isValid st (mkWrapper (base this) (m_usdXformForWrite this) readSide proxy)
     = isValid st this) /\
  (forall (stageProxy : GusdUSD_StageProxy host)
          (sourcePrim : UsdGeomImageable api) (time : UsdTimeCode host)
          (purposes : GusdPurposeSet host),
     isValid st (defineForRead host stageProxy sourcePrim time purposes) = false).
Proof.
  split; [|split].
  - unfold isValid. apply orb_diag.
  - intros readSide proxy. reflexivity.
  - intros stageProxy sourcePrim time purposes.
    unfold isValid, defineForRead, GusdXformWrapper_forRead.
    cbn [m_usdXformForWrite]. unfold Xformable_bool, UsdGeomXformable_default.
    cbn [Xformable_GetPrim]. rewrite Schema_bool_default. reflexivity.
Qed.

(** ** C3: updateFromGTPrim returns false and leaves the world (the stage
    with it), the wrapper and the cache as they are when the write-side
    member converts to false; otherwise it is updateGroupFromGTPrim on the
    write-side member and the same arguments. *)
Theorem updateFromGTPrim_spec (this : GusdXformWrapper host)
    (sourcePrim : GT_PrimitiveHandle host) (localXform : UT_Matrix4D host)
    (ctxt : GusdContext host) (xformCache : GusdSimpleXformCache host)
    (w : World api) :
  (Xformable_bool (stage w) (m_usdXformForWrite this) = false ->
     updateFromGTPrim this sourcePrim localXform ctxt xformCache w
     = ((false, this, xformCache), w)) /\
  (Xformable_bool (stage w) (m_usdXformForWrite this) = true ->
     updateFromGTPrim this sourcePrim localXform ctxt xformCache w
     = updateGroupFromGTPrim this (m_usdXformForWrite this) sourcePrim
         localXform ctxt xformCache w).
Proof.
  unfold updateFromGTPrim. rewrite bind_run. cbn [to_bool fst snd].
  split; intros ->; reflexivity.
Qed.

(** ** C4: redefine returns true whatever initUsdPrim returned; the world
    it leaves is the one initUsdPrim (with asOverride = ctxt.overlayGeo)
    leaves, and the wrapper is the one initUsdPrim leaves with its caches
    cleared. *)
Theorem redefine_returns_true (this : GusdXformWrapper host)
    (path : SdfPath) (ctxt : GusdContext host)
    (sourcePrim : GT_PrimitiveHandle host) (w : World api) :
  let r := redefine this path ctxt sourcePrim w in
  let i := initUsdPrim this path (overlayGeo host ctxt) w in
  fst (fst r) = true /\
  snd r = snd i /\
  snd (fst r) = clearCaches (snd (fst i)).
Proof.
  cbv zeta. unfold redefine. rewrite bind_run. cbn [ret fst snd]. auto.
Qed.

(** ** C8: defineForWrite returns a wrapper built from default-constructed
    members by initUsdPrim(stage, path, ctxt.overlayGeo); two calls that
    agree on overlayGeo give the same wrapper and the same world, whatever
    the source primitives and the rest of the contexts are. *)
Theorem defineForWrite_spec (sourcePrim : GT_PrimitiveHandle host)
    (path : SdfPath) (ctxt : GusdContext host) (w : World api) :
  (let i := initUsdPrim (GusdXformWrapper_members_default host) path
              (overlayGeo host ctxt) w in
   defineForWrite host sourcePrim path ctxt w = (snd (fst i), snd i)) /\
  (forall (sourcePrim' : GT_PrimitiveHandle host) (ctxt' : GusdContext host),
     overlayGeo host ctxt' = overlayGeo host ctxt ->
     defineForWrite host sourcePrim' path ctxt' w
     = defineForWrite host sourcePrim path ctxt w).
Proof.
  split.
  - cbv zeta. unfold defineForWrite, GusdXformWrapper_forWrite.
    rewrite bind_run. reflexivity.
  - intros sourcePrim' ctxt' Hsame. unfold defineForWrite.
    rewrite Hsame. reflexivity.
Qed.

(** ** C9: defineForRead returns a wrapper whose read side holds
    UsdGeomXform(sourcePrim.GetPrim()) with the lock of the stage proxy,
    whose stage proxy is the one given, whose base-class sub-object is
    built from the given time and purposes, and whose write side is the
    default-constructed UsdGeomXformable, which converts to false. *)
Theorem defineForRead_spec (stageProxy : GusdUSD_StageProxy host)
    (sourcePrim : UsdGeomImageable api) (time : UsdTimeCode host)
    (purposes : GusdPurposeSet host) :
  let wrapper := defineForRead host stageProxy sourcePrim time purposes in
  m_usdXformForRead wrapper
    = Holder_of host (mkXform (Imageable_GetPrim sourcePrim))
                (StageProxy_GetLock host stageProxy) /\
  m_stageProxy wrapper = Some stageProxy /\
  base wrapper = GroupBase_ctor host time purposes /\
  m_usdXformForWrite wrapper = UsdGeomXformable_default api /\
  forall st : UsdStage api,
    Xformable_bool st (m_usdXformForWrite wrapper) = false.
Proof.
  cbv zeta. unfold defineForRead, GusdXformWrapper_forRead.
  cbn [m_usdXformForRead m_stageProxy base m_usdXformForWrite].
  repeat split. intros st. apply Schema_bool_default.
Qed.

(** ** C10: enlargeBounds leaves every box of the array as it is;
    getMotionSegments is 1 and getMemoryUsage is 0. *)
Theorem enlargeBounds_noop (this : GusdXformWrapper host)
    (boxes : list (UT_BoundingBox host)) (nsegments : Z) :
  enlargeBounds this boxes nsegments = boxes /\
  (forall i : nat, enlargeBounds this boxes nsegments !! i = boxes !! i) /\
  getMotionSegments this = 1 /\
  getMemoryUsage this = 0.
Proof. unfold enlargeBounds, getMotionSegments, getMemoryUsage. auto. Qed.

End WrapperProperties.

(** ** HdMesh *)

Section MeshProperties.
Context {T : Hd.Types}.

Context {D : Type} {delegateClass : Hd.HdSceneDelegate T D}
        (rprim : Hd.HdRprimOps T D).

(** ** C6: each render-state and topology accessor is the one call of the
    same name on the delegate, at the id of the mesh; the delegate is the
    only thing that can have moved. *)
Theorem HdMesh_accessors_delegate (w : Hd.HdWorld rprim) :
  let id := Hd.GetId rprim (Hd.asRprim (Hd.mesh w)) in
  let after (d : D) := Hd.mkHdWorld d (Hd.mesh w) (Hd.reprDescConfig w) in
  Hd.IsDoubleSided w
    = (fst (Hd.GetDoubleSided (Hd.delegate w) id),
       after (snd (Hd.GetDoubleSided (Hd.delegate w) id))) /\
  Hd.HdMesh_GetCullStyle w
    = (fst (Hd.GetCullStyle (Hd.delegate w) id),
       after (snd (Hd.GetCullStyle (Hd.delegate w) id))) /\
  Hd.HdMesh_GetMeshTopology w
    = (fst (Hd.GetMeshTopology (Hd.delegate w) id),
       after (snd (Hd.GetMeshTopology (Hd.delegate w) id))) /\
  Hd.HdMesh_GetRefineLevel w
    = (fst (Hd.GetRefineLevel (Hd.delegate w) id),
       after (snd (Hd.GetRefineLevel (Hd.delegate w) id))) /\
  Hd.HdMesh_GetSubdivTags w
    = (fst (Hd.GetSubdivTags (Hd.delegate w) id),
       after (snd (Hd.GetSubdivTags (Hd.delegate w) id))).
Proof.
  cbv zeta.
  unfold Hd.IsDoubleSided, Hd.HdMesh_GetCullStyle, Hd.HdMesh_GetMeshTopology,
    Hd.HdMesh_GetRefineLevel, Hd.HdMesh_GetSubdivTags, Hd.viaDelegate,
    Hd.HdMesh_GetId.
  repeat split.
  - destruct (Hd.GetDoubleSided _ _); reflexivity.
  - destruct (Hd.GetCullStyle _ _); reflexivity.
  - destruct (Hd.GetMeshTopology _ _); reflexivity.
  - destruct (Hd.GetRefineLevel _ _); reflexivity.
  - destruct (Hd.GetSubdivTags _ _); reflexivity.
Qed.

(** ** C7: GetPoints and GetNormals are GetPrimVar at the tokens
    HdTokens->points and HdTokens->normals; the mesh and the repr
    configuration are as before. *)
Theorem HdMesh_primvar_accessors (w : Hd.HdWorld rprim) :
  let lookup (name : TfToken) :=
    Hd.GetPrimVar rprim (Hd.asRprim (Hd.mesh w)) (Hd.delegate w) name in
  let after (d : D) := Hd.mkHdWorld d (Hd.mesh w) (Hd.reprDescConfig w) in
  Hd.GetPoints w = Hd.HdMesh_GetPrimVar (Hd.HdTokens_points T) w /\
  Hd.GetNormals w = Hd.HdMesh_GetPrimVar (Hd.HdTokens_normals T) w /\
  Hd.GetPoints w
    = (fst (lookup (Hd.HdTokens_points T)),
       after (snd (lookup (Hd.HdTokens_points T)))) /\
  Hd.GetNormals w
    = (fst (lookup (Hd.HdTokens_normals T)),
       after (snd (lookup (Hd.HdTokens_normals T)))).
Proof.
  cbv zeta. unfold Hd.GetPoints, Hd.GetNormals, Hd.HdMesh_GetPrimVar, Hd.viaDelegate.
  repeat split.
  - destruct (Hd.GetPrimVar _ _ _ _); reflexivity.
  - destruct (Hd.GetPrimVar _ _ _ _); reflexivity.
Qed.

End MeshProperties.

(** ** Runs on the small stage *)

Section Runs.
Import Scene.

(** Nothing at /X: the Xform is defined at /X/Y/Z, then at /X/Y, /X and
    the pseudo-root, whose type name is empty too. *)
Example initUsdPrim_new_branch :
  let r := initUsdPrim fresh ["X"; "Y"; "Z"] true (world stageAB) in
  fst (fst r) = true /\
  calls (snd r)
  = [CallGetPrimAtPath ["X"; "Y"; "Z"]; CallXformDefine ["X"; "Y"; "Z"];
     CallXformDefine ["X"; "Y"]; CallXformDefine ["X"]; CallXformDefine []] /\
  typeNameAt (stage (snd r)) ["X"] = "Xform".
Proof. vm_compute. auto. Qed.

(** /A/B exists: it is overridden and keeps its type. *)
Example initUsdPrim_override_existing :
  let r := initUsdPrim fresh ["A"; "B"] true (world stageAB) in
  fst (fst r) = true /\
  calls (snd r) = [CallGetPrimAtPath ["A"; "B"]; CallOverridePrim ["A"; "B"]] /\
  typeNameAt (stage (snd r)) ["A"; "B"] = "Scope".
Proof. vm_compute. auto. Qed.

(** Nothing at /A/C, and /A is untyped: here the loop does give the
    existing /A a type. *)
Example initUsdPrim_contiguous_ancestor_retyped :
  let r := initUsdPrim fresh ["A"; "C"] true (world stageAB) in
  typeNameAt stageAB ["A"] = EmptyString /\
  calls (snd r)
  = [CallGetPrimAtPath ["A"; "C"]; CallXformDefine ["A"; "C"];
     CallXformDefine ["A"]; CallXformDefine []] /\
  typeNameAt (stage (snd r)) ["A"] = "Xform".
Proof. vm_compute. auto. Qed.

(** An ill-formed path: Define fails, a warning is issued, initUsdPrim
    returns false and redefine returns true all the same. *)
Example redefine_true_on_failure :
  let path := ["A"; EmptyString] in
  let i := initUsdPrim fresh path true (world stageAB) in
  let r := redefine fresh path (true, 0%nat) "box" (world stageAB) in
  fst (fst i) = false /\
  diagnostics (snd i) = [TfWarn_UnableToCreate "new" path] /\
  fst (fst r) = true /\
  isValid (stage (snd r)) (snd (fst r)) = false.
Proof. vm_compute. auto. Qed.

(** C1: the comment at line 104 reads "Make sure our ancestors have proper
    types", and here one is left without.  /A is an untyped prim, /A/B is a
    Scope and there is nothing at /A/B/C.  The loop stops at /A/B, which is
    typed, so no Xform is defined at /A although its type name is empty. *)
Lemma initUsdPrim_untyped_ancestor_left :
  let path := ["A"; "B"; "C"] in
  let w := world stageAB in
  Prim_IsValid api (stage w) (Stage_GetPrimAtPath api (stage w) path) = false /\
  ~ definesEveryUntypedAncestor fresh path w.
Proof.
  cbv zeta. split; [reflexivity|].
  intros Hall. specialize (Hall ["A"]).
  assert (Hanc : SdfPath_IsAncestor ["A"] ["A"; "B"; "C"]).
  { exists ["B"; "C"]. split; [discriminate | reflexivity]. }
  specialize (Hall Hanc eq_refl). vm_compute in Hall.
  destruct Hall as [H | [H | []]]; discriminate H.
Qed.

Lemma updateFromGTPrim_spec_witness :
  updateFromGTPrim fresh "box" 0 (true, 0%nat) 7%nat (world stageAB)
  = ((false, fresh, 7%nat), world stageAB) /\
  updateFromGTPrim onAB "box" 0 (true, 0%nat) 7%nat (world stageAB)
  = updateGroupFromGTPrim onAB (m_usdXformForWrite onAB) "box" 0
      (true, 0%nat) 7%nat (world stageAB).
Proof.
  split.
  - apply (proj1 (updateFromGTPrim_spec fresh "box" 0 (true, 0%nat)
                    7%nat (world stageAB))).
    reflexivity.
  - apply (proj2 (updateFromGTPrim_spec onAB "box" 0 (true, 0%nat)
                    7%nat (world stageAB))).
    reflexivity.
Defined.

Lemma defineForWrite_spec_witness :
  overlayGeo host (true, 5%nat) = overlayGeo host (true, 0%nat) /\
  defineForWrite host "sphere" ["A"; "B"; "C"] (true, 5%nat) (world stageAB)
  = defineForWrite host "box" ["A"; "B"; "C"] (true, 0%nat) (world stageAB).
Proof.
  split; [reflexivity|].
  apply (proj2 (defineForWrite_spec host "box" ["A"; "B"; "C"] (true, 0%nat)
                  (world stageAB))).
  reflexivity.
Defined.

End Runs.

(** ** Further properties of GusdXformWrapper *)

Section WrapperMore.
Context {api : UsdApi} (host : GusdHost api).

(** What the if/else of initUsdPrim leaves behind: no diagnostic, and
    [newPrim] false exactly when an existing prim was overridden. *)
Lemma initUsdPrim_target_run (this : GusdXformWrapper host) (path : SdfPath)
    (asOverride : bool) (w : World api) :
  let b := initUsdPrim_target this path asOverride w in
  diagnostics (snd b) = diagnostics w /\
  snd (fst b)
  = negb (asOverride
          && Prim_IsValid api (stage w) (Stage_GetPrimAtPath api (stage w) path)).
Proof.
  cbv zeta. unfold initUsdPrim_target. destruct asOverride; cbn [andb negb].
  - rewrite !bind_run. cbn [GetPrimAtPath IsValid fst snd stage].
    destruct (Prim_IsValid api (stage w) (Stage_GetPrimAtPath api (stage w) path)).
    + rewrite bind_run. unfold OverridePrim. cbn [stage calls diagnostics].
      destruct (Stage_OverridePrim api (stage w) path). cbn. auto.
    + rewrite !bind_run. cbn [GetParent fst snd ret negb]. split; [|reflexivity].
      match goal with
      | |- diagnostics (snd (defineAncestors ?p ?w1)) = _ =>
          destruct (AncestorWalk_calls (defineAncestors_walk p w1)) as [Hd _];
          rewrite Hd
      end.
      rewrite Define_diagnostics. reflexivity.
  - rewrite bind_run. cbn [ret fst snd]. rewrite Define_diagnostics. auto.
Qed.

Lemma initUsdPrim_report_diagnostics (this' : GusdXformWrapper host)
    (newPrim : bool) (path : SdfPath) (w1 : World api) :
  diagnostics (snd (initUsdPrim_report this' newPrim path w1))
  = diagnostics w1
    ++ (if negb (Xformable_bool (stage w1) (m_usdXformForWrite this'))
           || negb (Prim_IsValid api (stage w1)
                      (Xformable_GetPrim (m_usdXformForWrite this')))
        then [TfWarn_UnableToCreate (if newPrim then "new" else "override") path]
        else []).
Proof.
  unfold initUsdPrim_report. rewrite !bind_run. cbn [to_bool IsValid fst snd].
  destruct (negb _ || negb _); rewrite ?bind_run; cbn;
    [reflexivity | rewrite app_nil_r; reflexivity].
Qed.

(** X1: initUsdPrim issues at most one diagnostic: the warning of line 116,
    exactly when, on the stage it leaves, the write-side member converts to
    false or holds an invalid prim.  The warning names the path and says
    "override" when asOverride was set and a prim was found at the path,
    "new" otherwise.  A call that returns false has always warned. *)
Theorem initUsdPrim_warns (this : GusdXformWrapper host) (path : SdfPath)
    (asOverride : bool) (w : World api) :
  let r := initUsdPrim this path asOverride w in
  let target := m_usdXformForWrite (snd (fst r)) in
  let st' := stage (snd r) in
  let kind :=
    if asOverride
       && Prim_IsValid api (stage w) (Stage_GetPrimAtPath api (stage w) path)
    then "override" else "new" in
  diagnostics (snd r)
  = diagnostics w
    ++ (if negb (Xformable_bool st' target)
           || negb (Prim_IsValid api st' (Xformable_GetPrim target))
        then [TfWarn_UnableToCreate kind path] else []) /\
  (fst (fst r) = false ->
   diagnostics (snd r) = diagnostics w ++ [TfWarn_UnableToCreate kind path]).
Proof.
  cbv zeta. unfold initUsdPrim. rewrite bind_run.
  set (b := initUsdPrim_target this path asOverride w).
  destruct (initUsdPrim_report_run (fst (fst b)) (snd (fst b)) path (snd b))
    as (Hres & Hst & _).
  destruct (initUsdPrim_target_run this path asOverride w) as (Hd & Hnew).
  fold b in Hd, Hnew.
  rewrite initUsdPrim_report_diagnostics, Hres, Hst, Hd, Hnew. cbn [fst snd].
  assert (Hkind :
    (if negb (asOverride
              && Prim_IsValid api (stage w) (Stage_GetPrimAtPath api (stage w) path))
     then "new" else "override")
    = (if asOverride
          && Prim_IsValid api (stage w) (Stage_GetPrimAtPath api (stage w) path)
       then "override" else "new")) by (destruct (_ && _); reflexivity).
  rewrite Hkind. split; [reflexivity|].
  intros ->. reflexivity.
Qed.

(** X2: the ancestor loop of lines 105-109 only defines Xforms, each one
    strictly higher in namespace than the one before and none deeper than
    the prim the loop starts at; so it makes at most depth + 1 Define calls
    and never two at the same path.  It issues no diagnostic. *)
Theorem defineAncestors_bounded (p : UsdPrim api) (w : World api) :
  let w' := snd (defineAncestors p w) in
  diagnostics w' = diagnostics w /\
  exists paths : list SdfPath,
    calls w' = calls w ++ map CallXformDefine paths /\
    StronglySorted (fun a b : SdfPath => (length b < length a)%nat) paths /\
    Forall (fun a : SdfPath => (length a <= length (Prim_GetPath api p))%nat) paths /\
    (length paths <= S (length (Prim_GetPath api p)))%nat /\
    NoDup paths.
Proof.
  cbv zeta. pose proof (defineAncestors_walk p w) as Hwalk.
  split; [apply (AncestorWalk_calls Hwalk)|].
  cut (exists paths : list SdfPath,
         calls (snd (defineAncestors p w)) = calls w ++ map CallXformDefine paths /\
         StronglySorted (fun a b : SdfPath => (length b < length a)%nat) paths /\
         Forall (fun a : SdfPath => (length a <= length (Prim_GetPath api p))%nat) paths /\
         (length paths <= S (length (Prim_GetPath api p)))%nat /\
         (paths <> [] -> Prim_IsValid api (stage w) p = true)).
  { intros (paths & Hc & Hs & Hf & Hl & _). exists paths. repeat split; try assumption.
    clear Hc Hf Hl. induction Hs as [|a l _ IH Hlt]; constructor; [|exact IH].
    intros Hin. rewrite Forall_forall in Hlt. specialize (Hlt a Hin). lia. }
  induction Hwalk as [w p _ | w wa w' p Hgo Hwa _ IH].
  - exists []. simpl. rewrite app_nil_r.
    repeat split; [constructor | constructor | lia | congruence].
  - destruct IH as (paths & Hc & Hs & Hf & Hl & Hv). subst wa.
    rewrite Define_calls in Hc.
    set (q := Prim_GetParent api
                (stage (snd (UsdGeomXform_Define (Prim_GetPath api p) w))) p) in *.
    assert (Hq : paths <> [] ->
                 (length (Prim_GetPath api q) < length (Prim_GetPath api p))%nat).
    { intros Hne. apply Prim_GetParent_shorter. apply Hv. exact Hne. }
    exists (Prim_GetPath api p :: paths).
    split; [rewrite Hc, <- app_assoc; reflexivity|].
    assert (Hbelow : Forall (fun a : SdfPath =>
                       (length a < length (Prim_GetPath api p))%nat) paths).
    { destruct paths as [|a paths]; [constructor|].
      specialize (Hq ltac:(discriminate)).
      eapply Forall_impl; [exact Hf|]. cbn beta. intros; lia. }
    split; [constructor; assumption|].
    split; [constructor; [lia | eapply Forall_impl; [exact Hbelow|]; cbn beta; intros; lia]|].
    split.
    + destruct paths as [|a paths]; [simpl; lia|].
      specialize (Hq ltac:(discriminate)). cbn [length] in *. lia.
    + intros _. unfold untyped in Hgo. apply andb_prop in Hgo as [Hvalid _].
      exact Hvalid.
Qed.

(** The value initUsdPrim returns is what isValid says of the wrapper it
    leaves, on the stage it leaves. *)
Lemma initUsdPrim_result_isValid (this : GusdXformWrapper host)
    (path : SdfPath) (asOverride : bool) (w : World api) :
  let r := initUsdPrim this path asOverride w in
  isValid (stage (snd r)) (snd (fst r)) = fst (fst r).
Proof.
  cbv zeta. unfold initUsdPrim. rewrite bind_run.
  set (b := initUsdPrim_target this path asOverride w).
  destruct (initUsdPrim_report_run (fst (fst b)) (snd (fst b)) path (snd b))
    as (Hres & Hst & _).
  rewrite Hres, Hst. cbn [fst snd]. unfold isValid. apply orb_diag.
Qed.

(** X3: the wrapper defineForWrite returns need not be usable: on the stage
    the call leaves, isValid of the returned wrapper is the value its
    initUsdPrim returned, which the constructor drops. *)
Theorem defineForWrite_isValid (sourcePrim : GT_PrimitiveHandle host)
    (path : SdfPath) (ctxt : GusdContext host) (w : World api) :
  let r := defineForWrite host sourcePrim path ctxt w in
  isValid (stage (snd r)) (fst r)
  = fst (fst (initUsdPrim (GusdXformWrapper_members_default host) path
                (overlayGeo host ctxt) w)).
Proof.
  cbv zeta. unfold defineForWrite, GusdXformWrapper_forWrite.
  rewrite bind_run. cbn [ret fst snd].
  apply initUsdPrim_result_isValid.
Qed.

(** X4: redefine returns true, but whether the wrapper can be written to
    afterwards is what initUsdPrim returned: isValid of the wrapper redefine
    leaves, on the stage it leaves, is that value. *)
Theorem redefine_isValid (this : GusdXformWrapper host) (path : SdfPath)
    (ctxt : GusdContext host) (sourcePrim : GT_PrimitiveHandle host)
    (w : World api) :
  let r := redefine this path ctxt sourcePrim w in
  isValid (stage (snd r)) (snd (fst r))
  = fst (fst (initUsdPrim this path (overlayGeo host ctxt) w)).
Proof.
  cbv zeta. unfold redefine. rewrite bind_run. cbn [ret fst snd].
  rewrite <- initUsdPrim_result_isValid. reflexivity.
Qed.

(** X5: a wrapper made by defineForRead cannot be written through:
    updateFromGTPrim on it returns false and changes neither the world nor
    the wrapper nor the transform cache, whatever the stage is. *)
Theorem updateFromGTPrim_read_wrapper (stageProxy : GusdUSD_StageProxy host)
    (usdPrim : UsdGeomImageable api) (time : UsdTimeCode host)
    (purposes : GusdPurposeSet host) (sourcePrim : GT_PrimitiveHandle host)
    (localXform : UT_Matrix4D host) (ctxt : GusdContext host)
    (xformCache : GusdSimpleXformCache host) (w : World api) :
  let reader := defineForRead host stageProxy usdPrim time purposes in
  updateFromGTPrim reader sourcePrim localXform ctxt xformCache w
  = ((false, reader, xformCache), w).
Proof.
  cbv zeta. unfold updateFromGTPrim. rewrite bind_run. cbn [to_bool fst snd].
  unfold defineForRead at 1, GusdXformWrapper_forRead at 1.
  cbn [m_usdXformForWrite]. unfold Xformable_bool, UsdGeomXformable_default.
  cbn [Xformable_GetPrim]. rewrite Schema_bool_default. reflexivity.
Qed.

(** The if/else of initUsdPrim reads nothing of the wrapper it is called
    on. *)
Lemma initUsdPrim_target_frame (this other : GusdXformWrapper host)
    (path : SdfPath) (asOverride : bool) (w : World api) :
  let b := initUsdPrim_target this path asOverride w in
  let c := initUsdPrim_target other path asOverride w in
  snd b = snd c /\
  snd (fst b) = snd (fst c) /\
  m_usdXformForWrite (fst (fst b)) = m_usdXformForWrite (fst (fst c)).
Proof.
  cbv zeta. unfold initUsdPrim_target. destruct asOverride.
  - rewrite !bind_run. cbn [GetPrimAtPath IsValid fst snd stage].
    destruct (Prim_IsValid api (stage w) (Stage_GetPrimAtPath api (stage w) path)).
    + rewrite !bind_run. cbn [ret fst snd]. auto.
    + rewrite !bind_run. cbn [GetParent ret fst snd]. auto.
  - rewrite !bind_run. cbn [ret fst snd]. auto.
Qed.

Lemma initUsdPrim_report_frame (this other : GusdXformWrapper host)
    (newPrim : bool) (path : SdfPath) (w1 : World api) :
  m_usdXformForWrite this = m_usdXformForWrite other ->
  snd (initUsdPrim_report this newPrim path w1)
  = snd (initUsdPrim_report other newPrim path w1) /\
  fst (fst (initUsdPrim_report this newPrim path w1))
  = fst (fst (initUsdPrim_report other newPrim path w1)).
Proof.
  intros Hsame. unfold initUsdPrim_report. rewrite !bind_run.
  cbn [to_bool IsValid fst snd]. rewrite Hsame.
  destruct (negb _ || negb _); rewrite ?bind_run; cbn; auto.
Qed.

(** X7: initUsdPrim takes nothing from the wrapper it is called on: called
    on any two wrappers with the same path and flag in the same world, it
    returns the same value, leaves the same world (stage, calls and
    diagnostics) and the same write-side member.  So redefine retargets a
    wrapper whatever it pointed to before. *)
Theorem initUsdPrim_forgets_target (this other : GusdXformWrapper host)
    (path : SdfPath) (asOverride : bool) (w : World api) :
  let r := initUsdPrim this path asOverride w in
  let r' := initUsdPrim other path asOverride w in
  fst (fst r) = fst (fst r') /\
  snd r = snd r' /\
  m_usdXformForWrite (snd (fst r)) = m_usdXformForWrite (snd (fst r')).
Proof.
  cbv zeta. unfold initUsdPrim. rewrite !bind_run.
  destruct (initUsdPrim_target_frame this other path asOverride w)
    as (Hw & Hnew & Htarget).
  set (b := initUsdPrim_target this path asOverride w) in *.
  set (c := initUsdPrim_target other path asOverride w) in *.
  rewrite Hw, Hnew.
  destruct (initUsdPrim_report_frame (fst (fst b)) (fst (fst c)) (snd (fst c))
              path (snd c) Htarget) as (Hworld & Hvalue).
  split; [exact Hvalue|]. split; [exact Hworld|].
  destruct (initUsdPrim_report_run (fst (fst b)) (snd (fst c)) path (snd c))
    as (Hb & _).
  destruct (initUsdPrim_report_run (fst (fst c)) (snd (fst c)) path (snd c))
    as (Hc & _).
  rewrite Hb, Hc. exact Htarget.
Qed.

End WrapperMore.

(** ** getUniqueID *)

Section UniqueIdProperties.
Context {api : UsdApi} (host : GusdHost api).
Variable GT_TypeIds : Type.
Variable createPrimitiveTypeId : GT_TypeIds -> Z * GT_TypeIds.

Lemma getUniqueID_initialised (this : GusdXformWrapper host)
    (w : IdWorld GT_TypeIds) :
  s_id (snd (getUniqueID createPrimitiveTypeId this w))
  = Some (snd (fst (getUniqueID createPrimitiveTypeId this w))).
Proof.
  unfold getUniqueID. destruct (s_id w) eqn:Hid; [exact Hid|].
  destruct (createPrimitiveTypeId (typeIds w)). reflexivity.
Qed.

Lemma getUniqueID_each_initialised (id : Z)
    (wrappers : list (GusdXformWrapper host)) :
  forall w : IdWorld GT_TypeIds,
    s_id w = Some id ->
    getUniqueID_each createPrimitiveTypeId wrappers w
    = (repeat (true, id) (length wrappers), w).
Proof.
  induction wrappers as [|this rest IH]; intros w Hid; [reflexivity|].
  cbn [getUniqueID_each length repeat]. unfold getUniqueID. rewrite Hid.
  rewrite (IH w Hid). reflexivity.
Qed.

(** X6: all wrappers share one primitive type id.  Whatever wrappers
    getUniqueID is called on, in whatever number, every call returns true
    with the id the first call returned, and the host's registry is as the
    first call left it: createPrimitiveTypeId runs at most once. *)
Theorem getUniqueID_shared (first : GusdXformWrapper host)
    (rest : list (GusdXformWrapper host)) (w : IdWorld GT_TypeIds) :
  let r := getUniqueID createPrimitiveTypeId first w in
  getUniqueID_each createPrimitiveTypeId (first :: rest) w
  = (repeat (true, snd (fst r)) (S (length rest)), snd r) /\
  (s_id w = None ->
   typeIds (snd r) = snd (createPrimitiveTypeId (typeIds w))) /\
  (forall id : Z, s_id w = Some id -> r = ((true, id), w)).
Proof.
  cbv zeta. split; [|split].
  - cbn [getUniqueID_each repeat].
    pose proof (getUniqueID_initialised first w) as Hinit.
    destruct (getUniqueID createPrimitiveTypeId first w) as [[ok id] w1] eqn:Hr.
    cbn [fst snd] in *.
    rewrite (getUniqueID_each_initialised rest w1 Hinit).
    assert (Hok : ok = true).
    { unfold getUniqueID in Hr. destruct (s_id w); [congruence|].
      destruct (createPrimitiveTypeId (typeIds w)). congruence. }
    rewrite Hok. reflexivity.
  - intros Hnone. unfold getUniqueID. rewrite Hnone.
    destruct (createPrimitiveTypeId (typeIds w)). reflexivity.
  - intros id Hsome. unfold getUniqueID. rewrite Hsome. reflexivity.
Qed.

End UniqueIdProperties.

(** ** More runs on the small stage *)

Section MoreRuns.
Import Scene.

Lemma initUsdPrim_warns_witness :
  let path := ["A"; EmptyString] in
  let r := initUsdPrim fresh path true (world stageAB) in
  fst (fst r) = false /\
  diagnostics (snd r) = [TfWarn_UnableToCreate "new" path].
Proof.
  cbv zeta. split; [reflexivity|].
  exact (proj2 (initUsdPrim_warns fresh ["A"; EmptyString] true (world stageAB))
               eq_refl).
Defined.

Lemma getUniqueID_shared_witness :
  let create := fun n : nat => (Z.of_nat n, S n) in
  let cold := mkIdWorld 3%nat None in
  let warm := mkIdWorld 4%nat (Some 3) in
  typeIds (snd (getUniqueID create fresh cold)) = 4%nat /\
  getUniqueID create onAB warm = ((true, 3), warm).
Proof.
  cbv zeta. split.
  - exact (proj1 (proj2 (@getUniqueID_shared api host nat
                           (fun n : nat => (Z.of_nat n, S n)) fresh [onAB]
                           (mkIdWorld 3%nat None)))
                 eq_refl).
  - exact (proj2 (proj2 (@getUniqueID_shared api host nat
                           (fun n : nat => (Z.of_nat n, S n)) onAB [fresh]
                           (mkIdWorld 4%nat (Some 3))))
                 3 eq_refl).
Defined.

End MoreRuns.
